(** * Error normalisation of the gRPC interceptors

    A shallow embedding of [internal/grpc/interceptor.go]: the function
    [convertToGRPCError], which maps an arbitrary Go [error] to a gRPC status
    error, and [UnaryServerErrorInterceptor], which applies it on the error
    path of a unary call.

    The Go libraries the two functions call ([errors], [context], [strings],
    [google.golang.org/grpc/status] and [codes]) are modelled first, one
    definition per library function, under the library's own name with the
    dot replaced by an underscore. *)

From Stdlib Require Import Bool List String Ascii ZArith.
Import ListNotations.
Open Scope string_scope.
Open Scope bool_scope.

(** ** google.golang.org/grpc/codes *)

Module codes.

(** [codes.Code]: the seventeen codes the package defines, in numeric
    order (OK = 0 ... Unauthenticated = 16). *)
Inductive Code : Type :=
| OK | Canceled | Unknown | InvalidArgument | DeadlineExceeded | NotFound
| AlreadyExists | PermissionDenied | ResourceExhausted | FailedPrecondition
| Aborted | OutOfRange | Unimplemented | Internal | Unavailable | DataLoss
| Unauthenticated.

Definition eqb (a b : Code) : bool :=
  match a, b with
  | OK, OK | Canceled, Canceled | Unknown, Unknown
  | InvalidArgument, InvalidArgument | DeadlineExceeded, DeadlineExceeded
  | NotFound, NotFound | AlreadyExists, AlreadyExists
  | PermissionDenied, PermissionDenied
  | ResourceExhausted, ResourceExhausted
  | FailedPrecondition, FailedPrecondition | Aborted, Aborted
  | OutOfRange, OutOfRange | Unimplemented, Unimplemented
  | Internal, Internal | Unavailable, Unavailable | DataLoss, DataLoss
  | Unauthenticated, Unauthenticated => true
  | _, _ => false
  end.

(** [Code.String]. *)
Definition String (c : Code) : string :=
  match c with
  | OK => "OK" | Canceled => "Canceled" | Unknown => "Unknown"
  | InvalidArgument => "InvalidArgument"
  | DeadlineExceeded => "DeadlineExceeded" | NotFound => "NotFound"
  | AlreadyExists => "AlreadyExists"
  | PermissionDenied => "PermissionDenied"
  | ResourceExhausted => "ResourceExhausted"
  | FailedPrecondition => "FailedPrecondition" | Aborted => "Aborted"
  | OutOfRange => "OutOfRange" | Unimplemented => "Unimplemented"
  | Internal => "Internal" | Unavailable => "Unavailable"
  | DataLoss => "DataLoss" | Unauthenticated => "Unauthenticated"
  end.

End codes.

(** ** Error values

    A [*status.Status] is observed through its code and its message. *)
Record Status : Type := mkStatus { Code : codes.Code; Message : string }.

(** The two sentinel errors of package [context] the classifier looks for. *)
Inductive sentinel : Type := Canceled | DeadlineExceeded.

Definition sentinel_eqb (a b : sentinel) : bool :=
  match a, b with
  | Canceled, Canceled | DeadlineExceeded, DeadlineExceeded => true
  | _, _ => false
  end.

(** What the methods of a dynamic error type answer:
    - [Error_text]: the result of [Error()];
    - [Is_method]: the result of its [Is(target)] method on each sentinel,
      constantly [false] for a type without the method;
    - [GRPCStatus_method]: [None] for a type without a [GRPCStatus()] method,
      [Some None] when the method returns a nil [*Status], [Some (Some s)]
      when it returns [s]. *)
Record methods : Type := mkMethods {
  Error_text : string;
  Is_method : sentinel -> bool;
  GRPCStatus_method : option (option Status)
}.

(** A non-nil value of interface type [error].  A nil [error] is [None] of
    [option error].
    - [Sentinel s] is the value [context.Canceled] or
      [context.DeadlineExceeded] itself;
    - [Leaf] is a value whose type has no [Unwrap] method ([errors.New],
      a driver error, a [*status.Error]);
    - [Wrap] is a value with [Unwrap() error] ([fmt.Errorf] with one [%w]);
      a method returning nil cannot be told from an absent one by the
      functions below, so such a value is a [Leaf];
    - [Join] is a value with [Unwrap() []error] ([errors.Join], [fmt.Errorf]
      with several [%w]); nil entries are skipped by [errors.Is] and
      [errors.As] and are left out of the list. *)
#[local] Set Warnings "-register-all".
Inductive error : Type :=
| Sentinel (s : sentinel)
| Leaf (m : methods)
| Wrap (m : methods) (inner : error)
| Join (m : methods) (inners : list error).
#[local] Set Warnings "register-all".

(** ** context *)

Definition context_Canceled : error := Sentinel Canceled.
Definition context_DeadlineExceeded : error := Sentinel DeadlineExceeded.

(** [err.Error()]: the flattened text. *)
Definition Error (err : error) : string :=
  match err with
  | Sentinel Canceled => "context canceled"
  | Sentinel DeadlineExceeded => "context deadline exceeded"
  | Leaf m | Wrap m _ | Join m _ => Error_text m
  end.

(** ** errors *)

(** One pass of the loop of [errors.Is] on a single error: [err == target],
    or [err] has an [Is] method that accepts [target]. *)
Definition matches (target : sentinel) (err : error) : bool :=
  match err with
  | Sentinel s => sentinel_eqb s target
  | Leaf m | Wrap m _ | Join m _ => Is_method m target
  end.

(** [errors.Is(err, target)] for a non-nil [err] and a sentinel [target]:
    [err] itself, then what it unwraps to, depth first. *)
Fixpoint errors_Is (err : error) (target : sentinel) : bool :=
  matches target err ||
  match err with
  | Sentinel _ | Leaf _ => false
  | Wrap _ inner => errors_Is inner target
  | Join _ inners => existsb (fun e => errors_Is e target) inners
  end.

(** [errors.Unwrap(err)]: only the [Unwrap() error] method is called. *)
Definition errors_Unwrap (err : error) : option error :=
  match err with
  | Wrap _ inner => Some inner
  | Sentinel _ | Leaf _ | Join _ _ => None
  end.

(** The type assertion [err.(interface{ GRPCStatus() *Status })] followed by
    the call of the method. *)
Definition GRPCStatus (err : error) : option (option Status) :=
  match err with
  | Sentinel _ => None
  | Leaf m | Wrap m _ | Join m _ => GRPCStatus_method m
  end.

(** [errors.As(err, &gs)] with [gs] of the interface type above, followed by
    [gs.GRPCStatus()]: the first error of the tree, depth first, whose type
    has the method.  Error types with an [As] method of their own are not
    modelled. *)
Fixpoint errors_As_grpcstatus (err : error) : option (option Status) :=
  match GRPCStatus err with
  | Some r => Some r
  | None =>
      match err with
      | Sentinel _ | Leaf _ => None
      | Wrap _ inner => errors_As_grpcstatus inner
      | Join _ inners =>
          (fix first (l : list error) : option (option Status) :=
             match l with
             | [] => None
             | e :: l' =>
                 match errors_As_grpcstatus e with
                 | Some r => Some r
                 | None => first l'
                 end
             end) inners
      end
  end.

(** ** strings *)

(** [strings.Contains(s, substr)]: [substr] starts at some position of [s]. *)
Fixpoint strings_Contains (s substr : string) : bool :=
  if String.prefix substr s then true
  else match s with
       | EmptyString => false
       | String _ s' => strings_Contains s' substr
       end.

(** ** google.golang.org/grpc/status *)

(** The text of a [*status.Error]. *)
Definition status_text (c : codes.Code) (msg : string) : string :=
  "rpc error: code = " ++ codes.String c ++ " desc = " ++ msg.

(** A [*status.Error] value holding the status [(c, msg)]; its [Is] method
    rejects every target that is not a [*status.Error]. *)
Definition statusError (c : codes.Code) (msg : string) : error :=
  Leaf {| Error_text := status_text c msg;
          Is_method := fun _ => false;
          GRPCStatus_method := Some (Some (mkStatus c msg)) |}.

(** [status.Error(c, msg)]: nil for [codes.OK], else a [*status.Error]. *)
Definition status_Error (c : codes.Code) (msg : string) : option error :=
  match c with
  | codes.OK => None
  | _ => Some (statusError c msg)
  end.

(** [status.FromError(err)]: the status and the flag [ok].  An error that
    has the method itself gives its status; otherwise [errors.As] looks for
    one in the tree, and the status found takes the text of [err] as its
    message.  A [GRPCStatus()] that returns nil gives no status. *)
Definition status_FromError (err : option error) : option Status * bool :=
  match err with
  | None => (None, true)
  | Some e =>
      match GRPCStatus e with
      | Some (Some s) => (Some s, true)
      | Some None => (Some (mkStatus codes.Unknown (Error e)), false)
      | None =>
          match errors_As_grpcstatus e with
          | Some (Some s) => (Some (mkStatus (Code s) (Error e)), true)
          | Some None | None =>
              (Some (mkStatus codes.Unknown (Error e)), false)
          end
      end
  end.

(** [status.Code(err)]: [OK] for nil, else the code [FromError] finds. *)
Definition status_Code (err : option error) : codes.Code :=
  match fst (status_FromError err) with
  | Some s => Code s
  | None => codes.OK
  end.

(** ** internal/grpc/interceptor.go *)

(** The loop of [convertToGRPCError] over [unwrappedErr]: [Some r] when the
    loop returns [r], [None] when [errors.Unwrap] yields nil and the loop
    ends. *)
Fixpoint unwrap_loop (unwrappedErr : error) : option (option error) :=
  if errors_Is unwrappedErr Canceled then
    Some (status_Error codes.Canceled "request was canceled")
  else if errors_Is unwrappedErr DeadlineExceeded then
    Some (status_Error codes.DeadlineExceeded "request deadline exceeded")
  else
    match unwrappedErr with
    | Wrap _ inner => unwrap_loop inner
    | Sentinel _ | Leaf _ | Join _ _ => None
    end.

(** [convertToGRPCError].  The debug log line between the loop and the
    substring tests writes to the logger only and is left out. *)
Definition convertToGRPCError (err : option error) : option error :=
  if snd (status_FromError err) then err
  else
    match err with
    | None => None
    | Some e =>
        match unwrap_loop e with
        | Some r => r
        | None =>
            let errMsg := Error e in
            if strings_Contains errMsg "context canceled" then
              status_Error codes.Canceled "request was canceled"
            else if strings_Contains errMsg "context deadline exceeded" then
              status_Error codes.DeadlineExceeded "request deadline exceeded"
            else if strings_Contains errMsg "driver: bad connection"
                    || strings_Contains errMsg "connection refused"
                    || strings_Contains errMsg "connection reset"
                    || strings_Contains errMsg "broken pipe" then
              status_Error codes.Unavailable "database connection unavailable"
            else if strings_Contains errMsg "booking already expired" then
              status_Error codes.FailedPrecondition "booking already expired"
            else if strings_Contains errMsg
                      "reservation max retry exceeded" then
              status_Error codes.ResourceExhausted
                           "reservation max retry exceeded"
            else if strings_Contains errMsg
                      "booking release max retry exceeded" then
              status_Error codes.ResourceExhausted
                           "booking release max retry exceeded"
            else if strings_Contains errMsg "class is sold out"
                    || strings_Contains errMsg "no seat available" then
              status_Error codes.ResourceExhausted "seats are not available"
            else if strings_Contains errMsg
                      "class is not available for sale" then
              status_Error codes.FailedPrecondition
                           "class is not available for sale"
            else if strings_Contains errMsg
                      "invalid input syntax for type uuid" then
              status_Error codes.InvalidArgument "invalid UUID format"
            else
              status_Error codes.Internal (Error e)
        end
    end.

Section Interceptor.

(** The types of [context.Context], of requests, of [*grpc.UnaryServerInfo]
    and of responses; a response is an [interface{}], nil being [None]. *)
Variables Ctx Req UnaryServerInfo Resp : Type.

Definition UnaryHandler : Type := Ctx -> Req -> option Resp * option error.

(** The closure [UnaryServerErrorInterceptor] returns. *)
Definition UnaryServerErrorInterceptor
    (ctx : Ctx) (req : Req) (info : UnaryServerInfo) (handler : UnaryHandler)
  : option Resp * option error :=
  let '(resp, err) := handler ctx req in
  match err with
  | Some _ => (None, convertToGRPCError err)
  | None => (resp, None)
  end.

End Interceptor.

Arguments UnaryServerErrorInterceptor {Ctx Req UnaryServerInfo Resp}.

(** The function the specification calls [classify]: the status the caller
    of [convertToGRPCError] reads off its result. *)
Definition classify (err : error) : option Status :=
  fst (status_FromError (convertToGRPCError (Some err))).

(** ** The unwrap chain and the tree of an error *)

(** The errors [errors.Unwrap] reaches from [err], [err] first: the values
    [unwrappedErr] takes in the loop of [convertToGRPCError]. *)
Fixpoint unwrap_chain (err : error) : list error :=
  err :: match err with
         | Wrap _ inner => unwrap_chain inner
         | Sentinel _ | Leaf _ | Join _ _ => []
         end.

(** All the errors [err] is made of, in the order [errors.Is] visits them. *)
Fixpoint nodes (err : error) : list error :=
  err :: match err with
         | Sentinel _ | Leaf _ => []
         | Wrap _ inner => nodes inner
         | Join _ inners => flat_map nodes inners
         end.

(** The chain of [err] contains the sentinel [s]: one of its errors is [s],
    or stands for [s] through its [Is] method. *)
Definition chain_contains (err : error) (s : sentinel) : bool :=
  existsb (matches s) (nodes err).

(** [err] carries or derives from a status object: [status.FromError]
    answers [ok]. *)
Definition carries_status (err : error) : bool :=
  snd (status_FromError (Some err)).

(** ** The rule table of the specification

    The substring rules as the ordered list the specification gives, and
    the first-match evaluation of such a list; [convertToGRPCError] is
    compared with it in [convertToGRPCError_text_rules]. *)
Definition text_rules : list (list string * (codes.Code * string)) :=
  [ (["context canceled"], (codes.Canceled, "request was canceled"));
    (["context deadline exceeded"],
     (codes.DeadlineExceeded, "request deadline exceeded"));
    (["driver: bad connection"; "connection refused"; "connection reset";
      "broken pipe"],
     (codes.Unavailable, "database connection unavailable"));
    (["booking already expired"],
     (codes.FailedPrecondition, "booking already expired"));
    (["reservation max retry exceeded"],
     (codes.ResourceExhausted, "reservation max retry exceeded"));
    (["booking release max retry exceeded"],
     (codes.ResourceExhausted, "booking release max retry exceeded"));
    (["class is sold out"; "no seat available"],
     (codes.ResourceExhausted, "seats are not available"));
    (["class is not available for sale"],
     (codes.FailedPrecondition, "class is not available for sale"));
    (["invalid input syntax for type uuid"],
     (codes.InvalidArgument, "invalid UUID format")) ].

Fixpoint first_match (msg : string)
    (rules : list (list string * (codes.Code * string)))
  : option (codes.Code * string) :=
  match rules with
  | [] => None
  | (subs, r) :: rules' =>
      if existsb (strings_Contains msg) subs then Some r
      else first_match msg rules'
  end.

(** The outcome of the rule table on a text: the status of the first rule
    that matches, else [Internal] with the text itself. *)
Definition table_outcome (msg : string) : option error :=
  match first_match msg text_rules with
  | Some (c, m) => status_Error c m
  | None => status_Error codes.Internal msg
  end.

(** Every substring the rules test, in rule order. *)
Definition listed_substrings : list string := flat_map fst text_rules.

(** The substrings of the rules before the UUID rule. *)
Definition substrings_before_uuid : list string :=
  flat_map fst (removelast text_rules).

(** The codes the classifier itself constructs. *)
Definition produced_codes : list codes.Code :=
  [ codes.Canceled; codes.DeadlineExceeded; codes.InvalidArgument;
    codes.FailedPrecondition; codes.ResourceExhausted; codes.Unavailable;
    codes.Internal ].

(** ** Sample errors *)

(** The methods of an error type that defines [Error()] only. *)
Definition plain (text : string) : methods :=
  {| Error_text := text; Is_method := fun _ => false;
     GRPCStatus_method := None |}.

(** [errors.New(text)]. *)
Definition errors_New (text : string) : error := Leaf (plain text).

(** [fmt.Errorf(prefix + ": %w", inner)]. *)
Definition fmt_Errorf_w (prefix : string) (inner : error) : error :=
  Wrap (plain (prefix ++ ": " ++ Error inner)) inner.

Definition newline : string := String (ascii_of_nat 10) EmptyString.

(** The [*joinError] of [errs]: its text is the texts of [errs] on a line
    each. *)
Definition joinError (errs : list error) : error :=
  Join (plain (String.concat newline (map Error errs))) errs.

(** [errors.Join(errs...)] on non-nil errors: nil when there is none. *)
Definition errors_Join (errs : list error) : option error :=
  match errs with
  | [] => None
  | _ => Some (joinError errs)
  end.

(** [errors.Join(context.DeadlineExceeded, context.Canceled)]. *)
Definition deadline_joined_with_cancel : error :=
  joinError [context_DeadlineExceeded; context_Canceled].

(** An error in the manner of the canceled dial of package [net]: its [Is]
    method answers for [context.Canceled]; here it wraps
    [context.DeadlineExceeded]. *)
Definition canceled_wrapping_deadline : error :=
  Wrap {| Error_text := "operation was canceled";
          Is_method := fun t => sentinel_eqb t Canceled;
          GRPCStatus_method := None |}
       context_DeadlineExceeded.

(** An error of a type whose [Error()] does not quote the cause it unwraps
    to. *)
Definition opaque_timeout : error :=
  Wrap (plain "upstream call failed") context_DeadlineExceeded.

(** A status error of the booking service, and the same wrapped by its
    caller. *)
Definition expired_status : error :=
  statusError codes.FailedPrecondition "booking already expired".

Definition wrapped_status : error :=
  fmt_Errorf_w "confirm booking" expired_status.

(** [context.Canceled] three levels down the unwrap chain. *)
Definition canceled_at_depth_3 : error :=
  fmt_Errorf_w "handler"
    (fmt_Errorf_w "service" (fmt_Errorf_w "repository" context_Canceled)).

Definition canceled_dial : error :=
  errors_New "dial tcp: connection refused: context canceled".

Definition nil_pointer : error :=
  errors_New "unexpected nil pointer at line 88".

Definition bad_uuid : error :=
  errors_New "pq: invalid input syntax for type uuid: xyz".

(** A handler that answers the request [0] and fails, with a response
    value, on every other request. *)
Definition sample_handler : UnaryHandler unit nat nat :=
  fun _ req =>
    match req with
    | 0 => (Some 7, None)
    | _ => (Some 9, Some (errors_New "booking already expired"))
    end.

(** ** The logging interceptors of internal/grpc/interceptor.go *)

(** What the logging interceptors use of [context], [zerolog], [uuid] and
    the [logging] middleware:
    - [context_Context] is [context.Context], [zerolog_Logger] is
      [zerolog.Logger], [any] the type of the fields given to the adapter;
    - [Rand] is the state of the random source of [uuid], and
      [uuid_New_String] is [uuid.New().String()];
    - [log_Logger] is the global [log.Logger], [log_Ctx] is [log.Ctx];
    - [With_Str l k v] is [l.With().Str(k, v).Logger()], [With_Fields l fs]
      is [l.With().Fields(fs).Logger()], and [WithContext l ctx] is
      [l.WithContext(ctx)];
    - the last four are the constants of type [logging.Level], an [int]. *)
Class Collaborators : Type := {
  context_Context : Type;
  zerolog_Logger : Type;
  any : Type;
  Rand : Type;
  context_Background : context_Context;
  uuid_New_String : Rand -> string * Rand;
  log_Logger : zerolog_Logger;
  log_Ctx : context_Context -> zerolog_Logger;
  With_Str : zerolog_Logger -> string -> string -> zerolog_Logger;
  With_Fields : zerolog_Logger -> list any -> zerolog_Logger;
  WithContext : zerolog_Logger -> context_Context -> context_Context;
  LevelDebug : Z;
  LevelInfo : Z;
  LevelWarn : Z;
  LevelError : Z
}.

(** The levels at which the file writes to a [zerolog.Logger]. *)
Inductive zerolog_Level : Type :=
| DebugLevel | InfoLevel | WarnLevel | ErrorLevel.

(** One event written to a logger: [l.Debug().Msg(msg)] and the like, with
    the error given to [Err], if any. *)
Record LogCall `{Collaborators} : Type := mkLogCall {
  call_logger : zerolog_Logger;
  call_level : zerolog_Level;
  call_Err : option error;
  call_msg : string
}.
Arguments mkLogCall {_}.

(** What a call of the adapter does: it writes one event, or it panics on
    the level [lvl]. *)
Inductive LoggerOutcome `{Collaborators} : Type :=
| Logged (call : LogCall)
| Panics (lvl : Z).
Arguments Logged {_}.
Arguments Panics {_}.

(** The function [Logger] wraps in [logging.LoggerFunc]. *)
Definition Logger `{Collaborators}
    (ctx : context_Context) (lvl : Z) (msg : string) (fields : list any)
  : LoggerOutcome :=
  let l := With_Fields (log_Ctx ctx) fields in
  if (lvl =? LevelDebug)%Z then Logged (mkLogCall l DebugLevel None msg)
  else if (lvl =? LevelInfo)%Z then Logged (mkLogCall l InfoLevel None msg)
  else if (lvl =? LevelWarn)%Z then Logged (mkLogCall l WarnLevel None msg)
  else if (lvl =? LevelError)%Z then Logged (mkLogCall l ErrorLevel None msg)
  else Panics lvl.

(** The levels [Logger] has a case for. *)
Definition known_levels `{Collaborators} : list Z :=
  [LevelDebug; LevelInfo; LevelWarn; LevelError].

(** [logging.LoggableEvent]. *)
Inductive LoggableEvent : Type :=
| StartCall | FinishCall | PayloadReceived | PayloadSent.

(** A [logging.Option]: [logging.WithLogOnEvents], the one the file itself
    builds, or another option of the middleware, named by a number. *)
Inductive logging_Option : Type :=
| WithLogOnEvents (events : list LoggableEvent)
| OtherOption (id : nat).

Definition loggingOpts : list logging_Option :=
  [ WithLogOnEvents [StartCall; PayloadReceived; PayloadSent; FinishCall] ].

(** The interceptor a constructor of the middleware returns, as the call
    that builds it: the constructor, the logger and the options. *)
Inductive logging_Interceptor `{Collaborators} : Type :=
| logging_StreamServerInterceptor
    (logger : context_Context -> Z -> string -> list any -> LoggerOutcome)
    (opts : list logging_Option)
| logging_UnaryServerInterceptor
    (logger : context_Context -> Z -> string -> list any -> LoggerOutcome)
    (opts : list logging_Option)
| logging_UnaryClientInterceptor
    (logger : context_Context -> Z -> string -> list any -> LoggerOutcome)
    (opts : list logging_Option)
| logging_StreamClientInterceptor
    (logger : context_Context -> Z -> string -> list any -> LoggerOutcome)
    (opts : list logging_Option).
Arguments logging_StreamServerInterceptor {_}.
Arguments logging_UnaryServerInterceptor {_}.
Arguments logging_UnaryClientInterceptor {_}.
Arguments logging_StreamClientInterceptor {_}.

Definition StreamServerGRPCLoggerInterceptor `{Collaborators}
    (opts : list logging_Option) : logging_Interceptor :=
  let options := loggingOpts in
  let options := if (0 <? List.length opts)%nat then opts else options in
  logging_StreamServerInterceptor Logger options.

Definition UnaryServerGRPCLoggerInterceptor `{Collaborators}
    (opts : list logging_Option) : logging_Interceptor :=
  let options := loggingOpts in
  let options := if (0 <? List.length opts)%nat then opts else options in
  logging_UnaryServerInterceptor Logger options.

Definition UnaryClientGRPCLoggerInterceptor `{Collaborators}
    (opts : list logging_Option) : logging_Interceptor :=
  let options := loggingOpts in
  let options := if (0 <? List.length opts)%nat then opts else options in
  logging_UnaryClientInterceptor Logger options.

Definition StreamClientGRPCLoggerInterceptor `{Collaborators}
    (opts : list logging_Option) : logging_Interceptor :=
  let options := loggingOpts in
  let options := if (0 <? List.length opts)%nat then opts else options in
  logging_StreamClientInterceptor Logger options.

(** The options an interceptor of the middleware was built with. *)
Definition options_of `{Collaborators} (i : logging_Interceptor)
  : list logging_Option :=
  match i with
  | logging_StreamServerInterceptor _ opts
  | logging_UnaryServerInterceptor _ opts
  | logging_UnaryClientInterceptor _ opts
  | logging_StreamClientInterceptor _ opts => opts
  end.

Definition sets_events (o : logging_Option) : bool :=
  match o with
  | WithLogOnEvents _ => true
  | OtherOption _ => false
  end.

(** The closure [UnaryServerAppLoggerInterceptor] returns: the result of
    the handler and the state of the random source after the call. *)
Definition UnaryServerAppLoggerInterceptor `{Collaborators}
    {Req UnaryServerInfo Resp : Type}
    (ctx : context_Context) (req : Req) (info : UnaryServerInfo)
    (handler : UnaryHandler context_Context Req Resp) (rand : Rand)
  : (option Resp * option error) * Rand :=
  let '(id, rand') := uuid_New_String rand in
  let log := With_Str log_Logger "request_id" id in
  (handler (WithContext log ctx) req, rand').

(** [wrappedStream]: a struct that embeds the [grpc.ServerStream]. *)
Record wrappedStream (Stream : Type) : Type := mkWrappedStream {
  ServerStream : Stream
}.
Arguments mkWrappedStream {Stream}.
Arguments ServerStream {Stream}.

(** The method [Context] of [*wrappedStream]. *)
Definition wrappedStream_Context `{Collaborators} {Stream : Type}
    (w : wrappedStream Stream) (rand : Rand) : context_Context * Rand :=
  let '(id, rand') := uuid_New_String rand in
  let log := With_Str log_Logger "request_id" id in
  (WithContext log context_Background, rand').

Definition newWrappedStream {Stream : Type} (s : Stream)
  : wrappedStream Stream :=
  mkWrappedStream s.

(** A [grpc.StreamHandler] that is given a wrapped stream: it may ask the
    stream for its context, which draws from the random source. *)
Definition StreamHandler `{Collaborators} (Srv Stream : Type) : Type :=
  Srv -> wrappedStream Stream -> Rand -> option error * Rand.

(** The closure [StreamServerAppLoggerInterceptor] returns: the error, the
    events it writes itself, and the state of the random source. *)
Definition StreamServerAppLoggerInterceptor `{Collaborators}
    {Srv Stream StreamServerInfo : Type}
    (srv : Srv) (ss : Stream) (info : StreamServerInfo)
    (handler : StreamHandler Srv Stream) (rand : Rand)
  : (option error * list LogCall) * Rand :=
  let '(err, rand') := handler srv (newWrappedStream ss) rand in
  match err with
  | Some e =>
      ((err, [mkLogCall log_Logger ErrorLevel err ("Error: " ++ Error e)]),
       rand')
  | None => ((None, []), rand')
  end.

(** A small instance of the collaborators: a logger is the list of its
    fields, a context is the logger it carries, and the random source
    counts the identifiers drawn. *)
Definition sample_collaborators : Collaborators := {|
  context_Context := list (string * string);
  zerolog_Logger := list (string * string);
  any := string * string;
  Rand := nat;
  context_Background := [];
  uuid_New_String := fun n => (String (ascii_of_nat (97 + n)) "", S n);
  log_Logger := [];
  log_Ctx := fun ctx => ctx;
  With_Str := fun l k v => (l ++ [(k, v)])%list;
  With_Fields := fun l fs => (l ++ fs)%list;
  WithContext := fun l _ => l;
  LevelDebug := (-4)%Z;
  LevelInfo := 0%Z;
  LevelWarn := 4%Z;
  LevelError := 8%Z
|}.

(** A handler that fails with [context.Canceled] under a wrapper. *)
Definition canceling_stream_handler
  : @StreamHandler sample_collaborators unit unit :=
  fun _ _ rand => (Some (fmt_Errorf_w "recv" context_Canceled), rand).

Definition sold_out : error := errors_New "economy class is sold out".

(** [fmt.Errorf] applied once per prefix, the first prefix outermost. *)
Definition wrapped (prefixes : list string) (err : error) : error :=
  fold_right fmt_Errorf_w err prefixes.

(** The outcomes of the rules: the pairs of a code and a constant
    message. *)
Definition fixed_outcomes : list (codes.Code * string) := map snd text_rules.

(** ** Induction over an error and the errors it joins *)

Section error_tree_ind.

Variable P : error -> Prop.
Hypothesis P_Sentinel : forall s, P (Sentinel s).
Hypothesis P_Leaf : forall m, P (Leaf m).
Hypothesis P_Wrap : forall m inner, P inner -> P (Wrap m inner).
Hypothesis P_Join : forall m inners, Forall P inners -> P (Join m inners).

(** Induction over an error with a hypothesis for every joined error. *)
Fixpoint error_tree_ind (e : error) : P e :=
  match e with
  | Sentinel s => P_Sentinel s
  | Leaf m => P_Leaf m
  | Wrap m inner => P_Wrap m inner (error_tree_ind inner)
  | Join m inners =>
      P_Join m inners
        ((fix all (l : list error) : Forall P l :=
            match l with
            | [] => Forall_nil P
            | x :: l' => Forall_cons x (error_tree_ind x) (all l')
            end) inners)
  end.

End error_tree_ind.

(** * Properties *)

(** ** strings.Contains *)

Lemma prefix_exists (p s : string) :
  String.prefix p s = true <-> exists r, s = p ++ r.
Proof.
  revert s; induction p as [|c p IH]; intros s.
  - split; [intros _; now exists s | now destruct s].
  - destruct s as [|d s]; simpl.
    + split; [discriminate | intros [r Hr]; discriminate].
    + destruct (Ascii.ascii_dec c d) as [->|Hcd].
      * rewrite IH. split; intros [r Hr]; exists r.
        -- now rewrite Hr.
        -- now injection Hr.
      * split; [discriminate|].
        intros [r Hr]. injection Hr as Hd _. now subst.
Qed.

Lemma strings_Contains_eq (s sub : string) :
  strings_Contains s sub =
  if String.prefix sub s then true
  else match s with
       | EmptyString => false
       | String _ s' => strings_Contains s' sub
       end.
Proof. now destruct s. Qed.

(** [strings_Contains s sub] holds exactly when [s] is [a ++ sub ++ b]. *)
Lemma strings_Contains_spec (s sub : string) :
  strings_Contains s sub = true <-> exists a b, s = a ++ sub ++ b.
Proof.
  induction s as [|c s IH]; rewrite strings_Contains_eq.
  - destruct (String.prefix sub "") eqn:Hp.
    + split; [intros _|reflexivity].
      apply prefix_exists in Hp as [r Hr]. now exists "", r.
    + split; [discriminate|]. intros (a & b & Hab).
      destruct a; [|discriminate]. simpl in Hab.
      assert (String.prefix sub "" = true) by (apply prefix_exists; eauto).
      congruence.
  - destruct (String.prefix sub (String c s)) eqn:Hp.
    + split; [intros _|reflexivity].
      apply prefix_exists in Hp as [r Hr]. now exists "", r.
    + rewrite IH. split.
      * intros (a & b & ->). now exists (String c a), b.
      * intros (a & b & Hab). destruct a as [|d a]; simpl in Hab.
        -- assert (String.prefix sub (String c s) = true)
             by (apply prefix_exists; eauto).
           congruence.
        -- injection Hab as _ ->. eauto.
Qed.

(** ** errors.Is and the tree *)

(** [errors.Is] finds a sentinel exactly when the chain contains it. *)
Lemma errors_Is_chain_contains (err : error) (target : sentinel) :
  errors_Is err target = chain_contains err target.
Proof.
  unfold chain_contains.
  induction err as [s|m|m inner IH|m inners IH] using error_tree_ind;
    simpl; try reflexivity.
  - now rewrite IH.
  - f_equal. induction IH as [|x l Hx _ IHl]; simpl; [reflexivity|].
    now rewrite existsb_app, Hx, IHl.
Qed.

Lemma chain_contains_In (err : error) (s : sentinel) :
  chain_contains err s = true <->
  exists e, In e (nodes err) /\ matches s e = true.
Proof. apply existsb_exists. Qed.

(** Every error of the unwrap chain is an error of the tree. *)
Lemma unwrap_chain_nodes (err e : error) :
  In e (unwrap_chain err) -> In e (nodes err).
Proof.
  induction err as [s|m|m inner IH|m inners]; simpl; intuition.
Qed.

(** A sentinel met by unwrapping one level at a time is in the chain. *)
Lemma unwrap_chain_contains (err : error) (s : sentinel) :
  In (Sentinel s) (unwrap_chain err) -> chain_contains err s = true.
Proof.
  intros H. apply chain_contains_In. exists (Sentinel s).
  split; [now apply unwrap_chain_nodes | now destruct s].
Qed.

(** What [errors.Is] misses on an error it misses on what it unwraps to. *)
Lemma errors_Is_Unwrap (err inner : error) (target : sentinel) :
  errors_Is err target = false ->
  errors_Unwrap err = Some inner ->
  errors_Is inner target = false.
Proof.
  destruct err; simpl; try discriminate.
  intros H [= <-]. now apply orb_false_iff in H.
Qed.

(** The loop decides at its first pass: later passes test errors the first
    pass of [errors.Is] has already visited. *)
Lemma unwrap_loop_first_pass (err : error) :
  unwrap_loop err =
  if errors_Is err Canceled then
    Some (status_Error codes.Canceled "request was canceled")
  else if errors_Is err DeadlineExceeded then
    Some (status_Error codes.DeadlineExceeded "request deadline exceeded")
  else None.
Proof.
  induction err as [s|m|m inner IH|m inners];
    try (simpl; repeat destruct (_ || _); reflexivity).
  change (unwrap_loop (Wrap m inner))
    with (if errors_Is (Wrap m inner) Canceled then
            Some (status_Error codes.Canceled "request was canceled")
          else if errors_Is (Wrap m inner) DeadlineExceeded then
            Some (status_Error codes.DeadlineExceeded
                               "request deadline exceeded")
          else unwrap_loop inner).
  destruct (errors_Is (Wrap m inner) Canceled) eqn:Hc; [reflexivity|].
  destruct (errors_Is (Wrap m inner) DeadlineExceeded) eqn:Hd; [reflexivity|].
  rewrite IH.
  now rewrite (errors_Is_Unwrap _ inner _ Hc), (errors_Is_Unwrap _ inner _ Hd).
Qed.

Lemma unwrap_loop_no_sentinel (err : error) :
  chain_contains err Canceled = false ->
  chain_contains err DeadlineExceeded = false ->
  unwrap_loop err = None.
Proof.
  intros Hc Hd.
  now rewrite unwrap_loop_first_pass, !errors_Is_chain_contains, Hc, Hd.
Qed.

(** ** status.Error and status.FromError *)

Lemma status_Error_FromError (c : codes.Code) (msg : string) :
  c <> codes.OK ->
  exists r, status_Error c msg = Some r /\
            status_FromError (Some r) = (Some (mkStatus c msg), true).
Proof.
  intros Hc. destruct c; try congruence; eexists; split; reflexivity.
Qed.

Lemma FromError_ok_status (e : error) :
  carries_status e = true ->
  exists s, status_FromError (Some e) = (Some s, true).
Proof.
  unfold carries_status, status_FromError.
  destruct (GRPCStatus e) as [[s|]|]; simpl; try discriminate; eauto.
  destruct (errors_As_grpcstatus e) as [[s|]|]; simpl; try discriminate; eauto.
Qed.

(** ** The substring rules *)

(** On an error without status object and without sentinel,
    [convertToGRPCError] is the first-match evaluation of the rule table. *)
Lemma convertToGRPCError_text_rules (e : error) :
  carries_status e = false ->
  chain_contains e Canceled = false ->
  chain_contains e DeadlineExceeded = false ->
  convertToGRPCError (Some e) = table_outcome (Error e).
Proof.
  unfold carries_status. intros Hst Hc Hd.
  unfold convertToGRPCError, table_outcome.
  rewrite Hst, (unwrap_loop_no_sentinel e Hc Hd). cbv zeta.
  generalize (Error e). intros msg.
  cbn [text_rules first_match existsb].
  repeat match goal with
         | |- context [strings_Contains msg ?p] =>
             destruct (strings_Contains msg p); cbn [orb]; try reflexivity
         end.
Qed.

(** ** Shape of the result *)

Lemma convertToGRPCError_passthrough (e : error) :
  carries_status e = true -> convertToGRPCError (Some e) = Some e.
Proof.
  unfold carries_status, convertToGRPCError. now intros ->.
Qed.

(** Without a status object in the input, the result is built by
    [status.Error] with one of the seven codes. *)
Lemma convertToGRPCError_constructs (e : error) :
  carries_status e = false ->
  exists c m, In c produced_codes /\
              convertToGRPCError (Some e) = status_Error c m.
Proof.
  unfold carries_status. intros Hst.
  unfold convertToGRPCError. rewrite Hst, unwrap_loop_first_pass.
  destruct (errors_Is e Canceled);
    [do 2 eexists; split; [|reflexivity]; simpl; tauto|].
  destruct (errors_Is e DeadlineExceeded);
    [do 2 eexists; split; [|reflexivity]; simpl; tauto|].
  cbv zeta. generalize (Error e). intros msg.
  repeat match goal with
         | |- context [strings_Contains msg ?p] =>
             destruct (strings_Contains msg p); cbn [orb];
             try (do 2 eexists; split; [|reflexivity]; simpl; tauto)
         end.
Qed.

Lemma produced_codes_not_OK (c : codes.Code) :
  In c produced_codes -> c <> codes.OK.
Proof.
  simpl. intros H ->. intuition discriminate.
Qed.

(** The result has a status object of its own. *)
Lemma convertToGRPCError_carries (e : error) :
  exists r, convertToGRPCError (Some e) = Some r /\ carries_status r = true.
Proof.
  destruct (carries_status e) eqn:Hst.
  - exists e. now rewrite convertToGRPCError_passthrough.
  - destruct (convertToGRPCError_constructs e Hst) as (c & m & Hc & ->).
    apply produced_codes_not_OK in Hc.
    destruct (status_Error_FromError c m Hc) as (r & -> & Hr).
    exists r. unfold carries_status. now rewrite Hr.
Qed.

(** Classifying twice is classifying once, whatever the input. *)
Lemma convertToGRPCError_idempotent (err : option error) :
  convertToGRPCError (convertToGRPCError err) = convertToGRPCError err.
Proof.
  destruct err as [e|]; [|reflexivity].
  destruct (convertToGRPCError_carries e) as (r & -> & Hr).
  now apply convertToGRPCError_passthrough.
Qed.

(** What the caller reads off a result built by [status.Error]. *)
Lemma classify_status_Error (e : error) (c : codes.Code) (m : string) :
  c <> codes.OK ->
  convertToGRPCError (Some e) = status_Error c m ->
  convertToGRPCError (Some e) = status_Error c m /\
  classify e = Some (mkStatus c m).
Proof.
  intros Hc He. split; [exact He|]. unfold classify. rewrite He.
  destruct (status_Error_FromError c m Hc) as (r & -> & ->). reflexivity.
Qed.

(** Enters the proof that an error is classified [(c, m)]: leaves the
    equation of the result with [status.Error c m]. *)
Ltac classified_as := apply classify_status_Error; [discriminate|].

Lemma first_match_skip (msg : string)
    (pre rest : list (list string * (codes.Code * string))) :
  existsb (strings_Contains msg) (flat_map fst pre) = false ->
  first_match msg (pre ++ rest) = first_match msg rest.
Proof.
  induction pre as [|[subs r] pre IH]; simpl; [reflexivity|].
  rewrite existsb_app. intros H. apply orb_false_iff in H as [-> H].
  now apply IH.
Qed.

Lemma first_match_none (msg : string) :
  existsb (strings_Contains msg) listed_substrings = false ->
  first_match msg text_rules = None.
Proof.
  intros H. rewrite <- (app_nil_r text_rules).
  now rewrite first_match_skip.
Qed.

(** ** The classifier *)

(** C1: an error that carries or derives from a status object is returned
    as it is, with the status [status.FromError] reads from it unchanged,
    and classifying the result again returns it once more. *)
Theorem classified_passthrough (e : error) :
  carries_status e = true ->
  convertToGRPCError (Some e) = Some e /\
  status_FromError (convertToGRPCError (Some e)) = status_FromError (Some e) /\
  convertToGRPCError (convertToGRPCError (Some e)) =
  convertToGRPCError (Some e).
Proof.
  intros H. rewrite (convertToGRPCError_passthrough e H).
  now rewrite (convertToGRPCError_passthrough e H).
Qed.

Lemma classified_passthrough_witness :
  convertToGRPCError (Some expired_status) = Some expired_status /\
  status_FromError (convertToGRPCError (Some expired_status)) =
  status_FromError (Some expired_status) /\
  convertToGRPCError (convertToGRPCError (Some expired_status)) =
  convertToGRPCError (Some expired_status).
Proof.
  apply (classified_passthrough expired_status). reflexivity.
Defined.

(** C2, as amended: an error without status object whose chain contains
    the deadline-exceeded sentinel, and nothing that matches the
    operation-canceled sentinel, is classified (DEADLINE_EXCEEDED,
    "request deadline exceeded"), whatever its text. *)
Theorem deadline_before_text (e : error) :
  carries_status e = false ->
  chain_contains e DeadlineExceeded = true ->
  chain_contains e Canceled = false ->
  convertToGRPCError (Some e) =
    status_Error codes.DeadlineExceeded "request deadline exceeded" /\
  classify e =
    Some (mkStatus codes.DeadlineExceeded "request deadline exceeded").
Proof.
  intros Hst Hd Hc. classified_as.
  unfold convertToGRPCError. unfold carries_status in Hst.
  rewrite Hst, unwrap_loop_first_pass, !errors_Is_chain_contains.
  now rewrite Hc, Hd.
Qed.

Lemma deadline_before_text_witness :
  existsb (strings_Contains (Error opaque_timeout)) listed_substrings = false /\
  convertToGRPCError (Some opaque_timeout) =
    status_Error codes.DeadlineExceeded "request deadline exceeded" /\
  classify opaque_timeout =
    Some (mkStatus codes.DeadlineExceeded "request deadline exceeded").
Proof.
  split; [reflexivity|].
  apply (deadline_before_text opaque_timeout); reflexivity.
Defined.

(** C2, as stated, fails: each of these two errors has no status object and
    has [context.DeadlineExceeded] in its chain (the second one level down
    its unwrap chain), and is classified CANCELED, not DEADLINE_EXCEEDED. *)
Lemma deadline_in_chain_classified_canceled :
  (carries_status deadline_joined_with_cancel = false /\
   In context_DeadlineExceeded (nodes deadline_joined_with_cancel) /\
   classify deadline_joined_with_cancel =
     Some (mkStatus codes.Canceled "request was canceled") /\
   classify deadline_joined_with_cancel <>
     Some (mkStatus codes.DeadlineExceeded "request deadline exceeded")) /\
  (carries_status canceled_wrapping_deadline = false /\
   In context_DeadlineExceeded (unwrap_chain canceled_wrapping_deadline) /\
   classify canceled_wrapping_deadline =
     Some (mkStatus codes.Canceled "request was canceled") /\
   classify canceled_wrapping_deadline <>
     Some (mkStatus codes.DeadlineExceeded "request deadline exceeded")).
Proof.
  repeat split; simpl; auto; discriminate.
Qed.

(** C3: without status object and sentinel, a text with both "context
    canceled" and "connection refused" is classified (CANCELED, "request
    was canceled"): the result is that of the first rule, in the listed
    order, that matches the text. *)
Theorem canceled_before_unavailable (e : error) :
  carries_status e = false ->
  chain_contains e Canceled = false ->
  chain_contains e DeadlineExceeded = false ->
  strings_Contains (Error e) "context canceled" = true ->
  strings_Contains (Error e) "connection refused" = true ->
  convertToGRPCError (Some e) =
    status_Error codes.Canceled "request was canceled" /\
  classify e = Some (mkStatus codes.Canceled "request was canceled") /\
  convertToGRPCError (Some e) = table_outcome (Error e).
Proof.
  intros Hst Hc Hd Hcc _.
  pose proof (convertToGRPCError_text_rules e Hst Hc Hd) as Htable.
  apply and_assoc. split; [|exact Htable]. classified_as.
  rewrite Htable. unfold table_outcome.
  cbn [text_rules first_match existsb]. now rewrite Hcc.
Qed.

Lemma canceled_before_unavailable_witness :
  convertToGRPCError (Some canceled_dial) =
    status_Error codes.Canceled "request was canceled" /\
  classify canceled_dial =
    Some (mkStatus codes.Canceled "request was canceled") /\
  convertToGRPCError (Some canceled_dial) =
    table_outcome (Error canceled_dial).
Proof.
  apply (canceled_before_unavailable canceled_dial); reflexivity.
Defined.

(** C4: without status object and sentinel, a text with none of the listed
    substrings is classified INTERNAL with the text itself as message. *)
Theorem default_is_internal_verbatim (e : error) :
  carries_status e = false ->
  chain_contains e Canceled = false ->
  chain_contains e DeadlineExceeded = false ->
  existsb (strings_Contains (Error e)) listed_substrings = false ->
  convertToGRPCError (Some e) = status_Error codes.Internal (Error e) /\
  classify e = Some (mkStatus codes.Internal (Error e)).
Proof.
  intros Hst Hc Hd Hnone. classified_as.
  rewrite (convertToGRPCError_text_rules e Hst Hc Hd).
  unfold table_outcome. now rewrite first_match_none.
Qed.

Lemma default_is_internal_verbatim_witness :
  convertToGRPCError (Some nil_pointer) =
    status_Error codes.Internal "unexpected nil pointer at line 88" /\
  classify nil_pointer =
    Some (mkStatus codes.Internal "unexpected nil pointer at line 88").
Proof.
  apply (default_is_internal_verbatim nil_pointer); reflexivity.
Defined.

(** C5: without status object and sentinel, a text with "invalid input
    syntax for type uuid" and none of the substrings of the earlier rules is
    classified (INVALID_ARGUMENT, "invalid UUID format"). *)
Theorem uuid_is_invalid_argument (e : error) :
  carries_status e = false ->
  chain_contains e Canceled = false ->
  chain_contains e DeadlineExceeded = false ->
  strings_Contains (Error e) "invalid input syntax for type uuid" = true ->
  existsb (strings_Contains (Error e)) substrings_before_uuid = false ->
  convertToGRPCError (Some e) =
    status_Error codes.InvalidArgument "invalid UUID format" /\
  classify e = Some (mkStatus codes.InvalidArgument "invalid UUID format").
Proof.
  intros Hst Hc Hd Huuid Hnone. classified_as.
  rewrite (convertToGRPCError_text_rules e Hst Hc Hd).
  unfold table_outcome.
  change text_rules
    with (removelast text_rules ++
          [(["invalid input syntax for type uuid"],
            (codes.InvalidArgument, "invalid UUID format"))])%list.
  rewrite (first_match_skip _ _ _ Hnone).
  cbn [first_match existsb]. now rewrite Huuid.
Qed.

Lemma uuid_is_invalid_argument_witness :
  convertToGRPCError (Some bad_uuid) =
    status_Error codes.InvalidArgument "invalid UUID format" /\
  classify bad_uuid =
    Some (mkStatus codes.InvalidArgument "invalid UUID format").
Proof.
  apply (uuid_is_invalid_argument bad_uuid); reflexivity.
Defined.

(** C6: on every non-nil error the classifier returns a non-nil error from
    which [status.FromError] reads a status, that is a code and a
    message. *)
Theorem classification_total (e : error) :
  exists r s,
    convertToGRPCError (Some e) = Some r /\
    status_FromError (Some r) = (Some s, true) /\
    classify e = Some s.
Proof.
  destruct (convertToGRPCError_carries e) as (r & Hr & Hst).
  destruct (FromError_ok_status r Hst) as (s & Hs).
  exists r, s. unfold classify. now rewrite Hr, Hs.
Qed.

(** C7, as amended: for an error without status object the code of the
    result is one of the seven codes, hence never OK; an error with a status
    object keeps the code it came with. *)
Theorem result_codes (e : error) :
  (carries_status e = false ->
   In (status_Code (convertToGRPCError (Some e))) produced_codes /\
   status_Code (convertToGRPCError (Some e)) <> codes.OK) /\
  (carries_status e = true ->
   status_Code (convertToGRPCError (Some e)) = status_Code (Some e)).
Proof.
  split; intros Hst.
  - destruct (convertToGRPCError_constructs e Hst) as (c & m & Hc & ->).
    pose proof (produced_codes_not_OK c Hc) as Hok.
    destruct (status_Error_FromError c m Hok) as (r & -> & Hr).
    unfold status_Code. rewrite Hr. simpl fst. cbv beta iota. now split.
  - now rewrite convertToGRPCError_passthrough.
Qed.

Lemma result_codes_witness :
  In (status_Code (convertToGRPCError (Some nil_pointer))) produced_codes /\
  status_Code (convertToGRPCError (Some expired_status)) =
  codes.FailedPrecondition.
Proof.
  split.
  - apply (proj1 (result_codes nil_pointer)). reflexivity.
  - apply (proj2 (result_codes expired_status)). reflexivity.
Defined.

(** C7, as stated, fails: a NOT_FOUND status error is returned as it is,
    and NOT_FOUND is none of the seven codes. *)
Lemma not_found_is_produced :
  convertToGRPCError (status_Error codes.NotFound "booking not found") =
  status_Error codes.NotFound "booking not found" /\
  status_Code
    (convertToGRPCError (status_Error codes.NotFound "booking not found")) =
  codes.NotFound /\
  ~ In codes.NotFound produced_codes.
Proof.
  repeat split. simpl. intuition discriminate.
Qed.

(** C8: an error with the empty text, without status object and sentinel,
    is classified INTERNAL with the empty message. *)
Theorem empty_text_is_internal (e : error) :
  Error e = "" ->
  carries_status e = false ->
  chain_contains e Canceled = false ->
  chain_contains e DeadlineExceeded = false ->
  convertToGRPCError (Some e) = status_Error codes.Internal "" /\
  classify e = Some (mkStatus codes.Internal "").
Proof.
  intros Htxt Hst Hc Hd. classified_as.
  rewrite (convertToGRPCError_text_rules e Hst Hc Hd), Htxt. reflexivity.
Qed.

Lemma empty_text_is_internal_witness :
  convertToGRPCError (Some (errors_New "")) =
    status_Error codes.Internal "" /\
  classify (errors_New "") = Some (mkStatus codes.Internal "").
Proof.
  apply (empty_text_is_internal (errors_New "")); reflexivity.
Defined.

(** C9: an error without status object whose chain contains both sentinels
    is classified (CANCELED, "request was canceled"), wherever the two
    stand in the chain. *)
Theorem canceled_before_deadline (e : error) :
  carries_status e = false ->
  chain_contains e Canceled = true ->
  chain_contains e DeadlineExceeded = true ->
  convertToGRPCError (Some e) =
    status_Error codes.Canceled "request was canceled" /\
  classify e = Some (mkStatus codes.Canceled "request was canceled").
Proof.
  intros Hst Hc _. classified_as.
  unfold convertToGRPCError. unfold carries_status in Hst.
  now rewrite Hst, unwrap_loop_first_pass, errors_Is_chain_contains, Hc.
Qed.

Lemma canceled_before_deadline_witness :
  convertToGRPCError (Some deadline_joined_with_cancel) =
    status_Error codes.Canceled "request was canceled" /\
  classify deadline_joined_with_cancel =
    Some (mkStatus codes.Canceled "request was canceled").
Proof.
  apply (canceled_before_deadline deadline_joined_with_cancel); reflexivity.
Defined.

(** ** The interceptor *)

(** C10: when the handler returns no error, its response is returned with
    a nil error; when it returns an error, the response is nil, whatever the
    handler produced, and the error is the classified one, which is not
    nil. *)
Theorem interceptor_paths (Ctx Req UnaryServerInfo Resp : Type)
    (ctx : Ctx) (req : Req) (info : UnaryServerInfo)
    (handler : UnaryHandler Ctx Req Resp) :
  (forall resp,
      handler ctx req = (resp, None) ->
      UnaryServerErrorInterceptor ctx req info handler =
      (resp, None)) /\
  (forall resp e,
      handler ctx req = (resp, Some e) ->
      UnaryServerErrorInterceptor ctx req info handler =
      (None, convertToGRPCError (Some e)) /\
      exists r, convertToGRPCError (Some e) = Some r).
Proof.
  unfold UnaryServerErrorInterceptor. split.
  - now intros resp ->.
  - intros resp e ->. split; [reflexivity|].
    destruct (convertToGRPCError_carries e) as (r & Hr & _). eauto.
Qed.

Lemma interceptor_paths_witness :
  UnaryServerErrorInterceptor tt 0 tt sample_handler =
  (Some 7, None) /\
  UnaryServerErrorInterceptor tt 1 tt sample_handler =
  (None,
   status_Error codes.FailedPrecondition "booking already expired").
Proof.
  split.
  - apply (proj1 (interceptor_paths unit nat unit nat tt 0 tt sample_handler)
             (Some 7)).
    reflexivity.
  - apply (proj1
             (proj2 (interceptor_paths unit nat unit nat tt 1 tt sample_handler)
                (Some 9) (errors_New "booking already expired") eq_refl)).
Defined.

(** ** Further properties of the classifier *)

(** The substring fallback refines the ordered rule table: on an error
    without status object and sentinel the result is the status of the
    first rule that matches the text, or INTERNAL with the text. *)
Theorem fallback_refines_rule_table (e : error) :
  carries_status e = false ->
  chain_contains e Canceled = false ->
  chain_contains e DeadlineExceeded = false ->
  convertToGRPCError (Some e) =
  match first_match (Error e) text_rules with
  | Some (c, m) => status_Error c m
  | None => status_Error codes.Internal (Error e)
  end.
Proof.
  intros Hst Hc Hd. exact (convertToGRPCError_text_rules e Hst Hc Hd).
Qed.

Lemma fallback_refines_rule_table_witness :
  convertToGRPCError (Some (errors_New "economy class is sold out")) =
  status_Error codes.ResourceExhausted "seats are not available".
Proof.
  apply (fallback_refines_rule_table (errors_New "economy class is sold out"));
    reflexivity.
Defined.

(** When the first pass of the loop finds no sentinel, no later pass does:
    [errors.Is] misses it on every error of the unwrap chain. *)
Theorem later_passes_find_nothing (err e : error) (target : sentinel) :
  errors_Is err target = false ->
  In e (unwrap_chain err) ->
  errors_Is e target = false.
Proof.
  induction err as [s|m|m inner IH|m inners]; intros Hmiss Hin;
    try (destruct Hin as [<-|[]]; exact Hmiss).
  destruct Hin as [<-|Hin]; [exact Hmiss|].
  apply IH; [|exact Hin].
  now apply (errors_Is_Unwrap (Wrap m inner) inner target Hmiss).
Qed.

Lemma later_passes_find_nothing_witness :
  errors_Is (errors_New "repository: no rows") DeadlineExceeded = false.
Proof.
  apply (later_passes_find_nothing
           (fmt_Errorf_w "service" (errors_New "repository: no rows"))
           (errors_New "repository: no rows") DeadlineExceeded).
  - reflexivity.
  - simpl. auto.
Defined.

(** A nil error is returned as nil. *)
Example nil_is_returned :
  convertToGRPCError None = None.
Proof. reflexivity. Qed.

(** ** The scenarios of the specification *)

Example listed_substrings_eq :
  listed_substrings =
  [ "context canceled"; "context deadline exceeded";
    "driver: bad connection"; "connection refused"; "connection reset";
    "broken pipe"; "booking already expired";
    "reservation max retry exceeded"; "booking release max retry exceeded";
    "class is sold out"; "no seat available";
    "class is not available for sale";
    "invalid input syntax for type uuid" ].
Proof. reflexivity. Qed.

Example substrings_before_uuid_eq :
  (substrings_before_uuid ++ ["invalid input syntax for type uuid"])%list =
  listed_substrings.
Proof. reflexivity. Qed.

Example canceled_at_depth_3_is_canceled :
  In context_Canceled (unwrap_chain canceled_at_depth_3) /\
  classify canceled_at_depth_3 =
  Some (mkStatus codes.Canceled "request was canceled").
Proof. split; [simpl; auto | reflexivity]. Qed.

Example sold_out_is_resource_exhausted :
  classify (errors_New "economy class is sold out for flight 42") =
  Some (mkStatus codes.ResourceExhausted "seats are not available").
Proof. reflexivity. Qed.

Example bad_connection_is_unavailable :
  classify (errors_New "driver: bad connection") =
  Some (mkStatus codes.Unavailable "database connection unavailable").
Proof. reflexivity. Qed.

(** A status error under a wrapper is found by [status.FromError], and the
    wrapper is returned as it is. *)
Example wrapped_status_is_returned :
  carries_status wrapped_status = true /\
  convertToGRPCError (Some wrapped_status) = Some wrapped_status /\
  status_Code (Some wrapped_status) = codes.FailedPrecondition.
Proof. repeat split. Qed.

(** ** Wrapping and the classifier *)

Lemma string_app_assoc (a b c : string) : (a ++ b) ++ c = a ++ b ++ c.
Proof.
  induction a as [|x a IH]; simpl; [reflexivity | now rewrite IH].
Qed.

(** A text that quotes a text contains what the quoted text contains. *)
Lemma strings_Contains_trans (t u sub : string) :
  strings_Contains t u = true ->
  strings_Contains u sub = true ->
  strings_Contains t sub = true.
Proof.
  rewrite !strings_Contains_spec.
  intros (a & b & ->) (c & d & ->).
  exists (a ++ c), (d ++ b).
  now rewrite !string_app_assoc.
Qed.

Lemma strings_Contains_suffix (p s : string) :
  strings_Contains (p ++ s) s = true.
Proof.
  apply strings_Contains_spec. exists p, "".
  f_equal. induction s as [|x s IH]; simpl; [reflexivity | now rewrite <- IH].
Qed.

Lemma errors_As_direct (e : error) (r : option Status) :
  GRPCStatus e = Some r -> errors_As_grpcstatus e = Some r.
Proof.
  destruct e; simpl; try discriminate; now intros ->.
Qed.

(** [status.FromError] answers [ok] exactly when [errors.As] finds a status
    that is not nil, and the code it reports is the code of that status. *)
Lemma carries_status_As (e : error) :
  carries_status e = true <->
  exists s, errors_As_grpcstatus e = Some (Some s) /\
            status_Code (Some e) = Code s.
Proof.
  unfold carries_status, status_Code, status_FromError.
  destruct (GRPCStatus e) as [[s|]|] eqn:Hg.
  - rewrite (errors_As_direct e _ Hg). split; [eauto|reflexivity].
  - rewrite (errors_As_direct e _ Hg).
    split; [discriminate | now intros (s & [=] & _)].
  - destruct (errors_As_grpcstatus e) as [[s|]|]; simpl.
    + split; [eauto|reflexivity].
    + split; [discriminate | now intros (s & [=] & _)].
    + split; [discriminate | now intros (s & [=] & _)].
Qed.

Lemma carries_status_false_As (e : error) :
  carries_status e = false ->
  errors_As_grpcstatus e = Some None \/ errors_As_grpcstatus e = None.
Proof.
  intros H. destruct (errors_As_grpcstatus e) as [[s|]|] eqn:Has; auto.
  assert (carries_status e = true); [|congruence].
  unfold carries_status, status_FromError.
  destruct (GRPCStatus e) as [[s'|]|] eqn:Hg; [reflexivity| |now rewrite Has].
  rewrite (errors_As_direct e _ Hg) in Has. discriminate.
Qed.

(** A wrapper without methods of its own has a status exactly when what it
    wraps has one, and then with the same code. *)
Lemma plain_wrapper_status (t : string) (e : error) :
  carries_status (Wrap (plain t) e) = carries_status e /\
  (carries_status e = true ->
   status_Code (Some (Wrap (plain t) e)) = status_Code (Some e)).
Proof.
  assert (Hw : errors_As_grpcstatus (Wrap (plain t) e) =
               errors_As_grpcstatus e) by reflexivity.
  destruct (carries_status e) eqn:Hst.
  - apply carries_status_As in Hst as (s & Has & Hcode).
    assert (Hwst : carries_status (Wrap (plain t) e) = true).
    { unfold carries_status, status_FromError. simpl GRPCStatus.
      cbv beta iota. now rewrite Hw, Has. }
    split; [exact Hwst|]. intros _.
    apply carries_status_As in Hwst as (s' & Has' & Hcode').
    rewrite Hw, Has in Has'. injection Has' as <-. congruence.
  - split; [|discriminate].
    unfold carries_status, status_FromError. simpl GRPCStatus. cbv beta iota.
    rewrite Hw.
    now destruct (carries_status_false_As e Hst) as [-> | ->].
Qed.

Lemma plain_wrapper_chain (t : string) (e : error) (s : sentinel) :
  chain_contains (Wrap (plain t) e) s = chain_contains e s.
Proof. reflexivity. Qed.

Lemma status_Code_status_Error (c : codes.Code) (m : string) :
  status_Code (status_Error c m) = c.
Proof. now destruct c. Qed.

(** Among the substring rules only the first gives CANCELED. *)
Lemma table_outcome_Canceled (msg : string) :
  status_Code (table_outcome msg) = codes.Canceled ->
  strings_Contains msg "context canceled" = true.
Proof.
  unfold table_outcome. cbn [text_rules first_match existsb].
  destruct (strings_Contains msg "context canceled"); [reflexivity|].
  cbn [orb].
  repeat match goal with
         | |- context [strings_Contains msg ?p] =>
             destruct (strings_Contains msg p); cbn [orb];
             try (rewrite status_Code_status_Error; discriminate)
         end.
Qed.

(** An error classified CANCELED stays CANCELED under a wrapper without
    methods of its own whose text quotes the text of the error. *)
Lemma canceled_under_wrapper (t : string) (e : error) :
  strings_Contains t (Error e) = true ->
  status_Code (convertToGRPCError (Some e)) = codes.Canceled ->
  status_Code (convertToGRPCError (Some (Wrap (plain t) e))) = codes.Canceled.
Proof.
  intros Hquote Hcode.
  destruct (plain_wrapper_status t e) as [Hw Hwcode].
  destruct (carries_status e) eqn:Hst.
  - rewrite convertToGRPCError_passthrough in Hcode by exact Hst.
    rewrite convertToGRPCError_passthrough by exact Hw.
    now rewrite Hwcode.
  - destruct (chain_contains e Canceled) eqn:Hc.
    + unfold convertToGRPCError. unfold carries_status in Hw. rewrite Hw.
      rewrite unwrap_loop_first_pass, errors_Is_chain_contains.
      now rewrite plain_wrapper_chain, Hc.
    + destruct (chain_contains e DeadlineExceeded) eqn:Hd.
      * exfalso. revert Hcode. unfold convertToGRPCError.
        unfold carries_status in Hst.
        rewrite Hst, unwrap_loop_first_pass, !errors_Is_chain_contains.
        now rewrite Hc, Hd.
      * rewrite (convertToGRPCError_text_rules e Hst Hc Hd) in Hcode.
        apply table_outcome_Canceled in Hcode.
        rewrite (convertToGRPCError_text_rules (Wrap (plain t) e) Hw)
          by (now rewrite plain_wrapper_chain).
        unfold table_outcome. cbn [text_rules first_match existsb Error].
        simpl Error_text.
        now rewrite (strings_Contains_trans _ _ _ Hquote Hcode).
Qed.

Lemma fmt_Errorf_w_quotes (p : string) (e : error) :
  strings_Contains (Error (fmt_Errorf_w p e)) (Error e) = true.
Proof.
  simpl. apply (strings_Contains_trans _ (": " ++ Error e)).
  - apply strings_Contains_suffix.
  - apply (strings_Contains_suffix ": ").
Qed.

Lemma wrapped_carries_status (ps : list string) (e : error) :
  carries_status (wrapped ps e) = carries_status e /\
  (carries_status e = true ->
   status_Code (Some (wrapped ps e)) = status_Code (Some e)).
Proof.
  induction ps as [|p ps [IHst IHcode]]; simpl; [now split|].
  destruct (plain_wrapper_status (p ++ ": " ++ Error (wrapped ps e))
                                 (wrapped ps e)) as [Hst Hcode].
  unfold fmt_Errorf_w. split.
  - now rewrite Hst.
  - intros H. rewrite Hcode by now rewrite IHst. now apply IHcode.
Qed.

Lemma wrapped_chain (ps : list string) (e : error) (s : sentinel) :
  chain_contains (wrapped ps e) s = chain_contains e s.
Proof.
  induction ps as [|p ps IH]; simpl; [reflexivity|].
  unfold fmt_Errorf_w. now rewrite plain_wrapper_chain.
Qed.

(** An error classified CANCELED is classified CANCELED under any number of
    [fmt.Errorf] wrappers, whatever their prefixes. *)
Theorem canceled_survives_wrapping (ps : list string) (e : error) :
  status_Code (convertToGRPCError (Some e)) = codes.Canceled ->
  status_Code (convertToGRPCError (Some (wrapped ps e))) = codes.Canceled.
Proof.
  intros H. induction ps as [|p ps IH]; simpl; [exact H|].
  apply canceled_under_wrapper; [|exact IH].
  apply fmt_Errorf_w_quotes.
Qed.

Lemma canceled_survives_wrapping_witness :
  status_Code
    (convertToGRPCError
       (Some (wrapped ["handler"; "connection refused by peer"]
                      (errors_New "rpc aborted: context canceled")))) =
  codes.Canceled.
Proof.
  apply (canceled_survives_wrapping
           ["handler"; "connection refused by peer"]
           (errors_New "rpc aborted: context canceled")).
  reflexivity.
Defined.

(** An error with a status object under any number of [fmt.Errorf] wrappers
    is returned as it is, wrappers included, and [status.Code] reads from
    it the code of the status inside. *)
Theorem status_survives_wrapping (ps : list string) (e : error) :
  carries_status e = true ->
  convertToGRPCError (Some (wrapped ps e)) = Some (wrapped ps e) /\
  status_Code (convertToGRPCError (Some (wrapped ps e))) =
  status_Code (Some e).
Proof.
  intros H. destruct (wrapped_carries_status ps e) as [Hst Hcode].
  rewrite convertToGRPCError_passthrough by now rewrite Hst.
  split; [reflexivity | now apply Hcode].
Qed.

Lemma status_survives_wrapping_witness :
  convertToGRPCError
    (Some (wrapped ["handler"; "service"]
                   (statusError codes.NotFound "no such booking"))) =
  Some (wrapped ["handler"; "service"]
                (statusError codes.NotFound "no such booking")) /\
  status_Code
    (convertToGRPCError
       (Some (wrapped ["handler"; "service"]
                      (statusError codes.NotFound "no such booking")))) =
  codes.NotFound.
Proof.
  apply (status_survives_wrapping ["handler"; "service"]
           (statusError codes.NotFound "no such booking")).
  reflexivity.
Defined.

Lemma wrapped_sentinel (ps : list string) (s : sentinel) :
  convertToGRPCError (Some (wrapped ps (Sentinel s))) =
  match s with
  | Canceled => status_Error codes.Canceled "request was canceled"
  | DeadlineExceeded =>
      status_Error codes.DeadlineExceeded "request deadline exceeded"
  end.
Proof.
  unfold convertToGRPCError.
  destruct (wrapped_carries_status ps (Sentinel s)) as [Hst _].
  unfold carries_status in Hst. rewrite Hst. simpl snd. cbv iota.
  rewrite unwrap_loop_first_pass, !errors_Is_chain_contains, !wrapped_chain.
  now destruct s.
Qed.

(** A context sentinel under any number of [fmt.Errorf] wrappers is
    classified by the sentinel, whatever the prefixes say: CANCELED for
    [context.Canceled], DEADLINE_EXCEEDED for [context.DeadlineExceeded]. *)
Theorem sentinel_at_any_depth (ps : list string) :
  classify (wrapped ps context_Canceled) =
    Some (mkStatus codes.Canceled "request was canceled") /\
  classify (wrapped ps context_DeadlineExceeded) =
    Some (mkStatus codes.DeadlineExceeded "request deadline exceeded").
Proof.
  split; classified_as.
  - exact (wrapped_sentinel ps Canceled).
  - exact (wrapped_sentinel ps DeadlineExceeded).
Qed.

Lemma first_match_In (msg : string)
    (rules : list (list string * (codes.Code * string)))
    (r : codes.Code * string) :
  first_match msg rules = Some r -> In r (map snd rules).
Proof.
  induction rules as [|[subs r'] rules IH]; simpl; [discriminate|].
  destruct (existsb (strings_Contains msg) subs).
  - intros [= ->]. now left.
  - intros H. right. now apply IH.
Qed.

Lemma first_match_None_substrings (msg : string)
    (rules : list (list string * (codes.Code * string))) :
  first_match msg rules = None ->
  existsb (strings_Contains msg) (flat_map fst rules) = false.
Proof.
  induction rules as [|[subs r'] rules IH]; simpl; [reflexivity|].
  rewrite existsb_app.
  destruct (existsb (strings_Contains msg) subs); [discriminate|].
  exact IH.
Qed.

Lemma fixed_outcomes_not_OK (c : codes.Code) (m : string) :
  In (c, m) fixed_outcomes -> c <> codes.OK.
Proof.
  intros H ->. simpl in H.
  repeat (destruct H as [H|H]; [discriminate|]). exact H.
Qed.

(** The message of the result, for an error without status object, is one
    of the nine constant messages with its code; it is the text of the
    error only with code INTERNAL, and only when the chain has no sentinel
    and the text none of the listed substrings. *)
Theorem message_is_fixed_or_default (e : error) :
  carries_status e = false ->
  exists s,
    classify e = Some s /\
    (In (Code s, Message s) fixed_outcomes \/
     (s = mkStatus codes.Internal (Error e) /\
      chain_contains e Canceled = false /\
      chain_contains e DeadlineExceeded = false /\
      existsb (strings_Contains (Error e)) listed_substrings = false)).
Proof.
  intros Hst.
  destruct (chain_contains e Canceled) eqn:Hc;
    [|destruct (chain_contains e DeadlineExceeded) eqn:Hd].
  - exists (mkStatus codes.Canceled "request was canceled"). split.
    + classified_as. unfold convertToGRPCError. unfold carries_status in Hst.
      now rewrite Hst, unwrap_loop_first_pass, errors_Is_chain_contains, Hc.
    + left. simpl. auto.
  - exists (mkStatus codes.DeadlineExceeded "request deadline exceeded").
    split.
    + classified_as. unfold convertToGRPCError. unfold carries_status in Hst.
      rewrite Hst, unwrap_loop_first_pass, !errors_Is_chain_contains.
      now rewrite Hc, Hd.
    + left. simpl. auto.
  - pose proof (convertToGRPCError_text_rules e Hst Hc Hd) as Htable.
    unfold table_outcome in Htable.
    destruct (first_match (Error e) text_rules) as [[c m]|] eqn:Hfm.
    + apply first_match_In in Hfm. exists (mkStatus c m). split.
      * apply classify_status_Error; [|exact Htable].
        now apply (fixed_outcomes_not_OK c m).
      * left. exact Hfm.
    + exists (mkStatus codes.Internal (Error e)). split.
      * now classified_as.
      * right. repeat split.
        now apply first_match_None_substrings in Hfm.
Qed.

Lemma message_is_fixed_or_default_witness :
  exists s,
    classify sold_out = Some s /\
    (In (Code s, Message s) fixed_outcomes \/
     (s = mkStatus codes.Internal (Error sold_out) /\
      chain_contains sold_out Canceled = false /\
      chain_contains sold_out DeadlineExceeded = false /\
      existsb (strings_Contains (Error sold_out)) listed_substrings = false)).
Proof.
  apply (message_is_fixed_or_default sold_out). reflexivity.
Defined.

Lemma wrapped_quotes (ps : list string) (e : error) :
  strings_Contains (Error (wrapped ps e)) (Error e) = true.
Proof.
  induction ps as [|p ps IH].
  - apply (strings_Contains_suffix "").
  - apply (strings_Contains_trans _ (Error (wrapped ps e))); [|exact IH].
    apply fmt_Errorf_w_quotes.
Qed.

(** The text fallback agrees with the chain walk: an error that keeps only
    the text of a chain of [fmt.Errorf] wrappers around a context sentinel
    is classified as the chain is, CANCELED for [context.Canceled] and,
    when no prefix brings in "context canceled", DEADLINE_EXCEEDED for
    [context.DeadlineExceeded]. *)
Theorem text_fallback_agrees_with_chain (ps : list string) :
  classify (errors_New (Error (wrapped ps context_Canceled))) =
  classify (wrapped ps context_Canceled) /\
  (strings_Contains (Error (wrapped ps context_DeadlineExceeded))
                    "context canceled" = false ->
   classify (errors_New (Error (wrapped ps context_DeadlineExceeded))) =
   classify (wrapped ps context_DeadlineExceeded)).
Proof.
  pose proof (wrapped_quotes ps context_Canceled) as Hqc.
  pose proof (wrapped_quotes ps context_DeadlineExceeded) as Hqd.
  change (Error context_Canceled) with "context canceled" in Hqc.
  change (Error context_DeadlineExceeded)
    with "context deadline exceeded" in Hqd.
  assert (Hc : classify (wrapped ps context_Canceled) =
               Some (mkStatus codes.Canceled "request was canceled"))
    by (classified_as; exact (wrapped_sentinel ps Canceled)).
  assert (Hd : classify (wrapped ps context_DeadlineExceeded) =
               Some (mkStatus codes.DeadlineExceeded
                              "request deadline exceeded"))
    by (classified_as; exact (wrapped_sentinel ps DeadlineExceeded)).
  rewrite Hc, Hd. split; [|intros Hno]; classified_as.
  - rewrite convertToGRPCError_text_rules by reflexivity.
    unfold table_outcome. cbn [text_rules first_match existsb].
    change (Error (errors_New ?t)) with t. now rewrite Hqc.
  - rewrite convertToGRPCError_text_rules by reflexivity.
    unfold table_outcome. cbn [text_rules first_match existsb].
    change (Error (errors_New ?t)) with t. now rewrite Hno, Hqd.
Qed.

Lemma text_fallback_agrees_with_chain_witness :
  classify
    (errors_New
       (Error (wrapped ["handler"; "query"] context_DeadlineExceeded))) =
  classify (wrapped ["handler"; "query"] context_DeadlineExceeded).
Proof.
  apply (proj2 (text_fallback_agrees_with_chain ["handler"; "query"])).
  reflexivity.
Defined.

(** ** The interceptors together *)

(** Installing the error interceptor twice is installing it once: the
    outer one finds the error of the inner one classified and returns it. *)
Theorem error_interceptor_nested (Ctx Req UnaryServerInfo Resp : Type)
    (ctx : Ctx) (req : Req) (info : UnaryServerInfo)
    (handler : UnaryHandler Ctx Req Resp) :
  UnaryServerErrorInterceptor ctx req info
    (fun c q => UnaryServerErrorInterceptor c q info handler) =
  UnaryServerErrorInterceptor ctx req info handler.
Proof.
  unfold UnaryServerErrorInterceptor.
  destruct (handler ctx req) as [resp [e|]]; [|reflexivity].
  destruct (convertToGRPCError_carries e) as (r & Hr & Hst).
  rewrite Hr. now rewrite (convertToGRPCError_passthrough r Hst).
Qed.

(** The request-id interceptor and the error interceptor commute: in either
    order the handler runs once, on the context that carries the logger
    with the identifier drawn, and its outcome goes through the
    classifier. *)
Theorem request_id_commutes_with_errors `{Collaborators}
    (Req UnaryServerInfo Resp : Type)
    (ctx : context_Context) (req : Req) (info : UnaryServerInfo)
    (handler : UnaryHandler context_Context Req Resp) (rand : Rand) :
  UnaryServerErrorInterceptor ctx req info
    (fun c q => fst (UnaryServerAppLoggerInterceptor c q info handler rand)) =
  fst (UnaryServerAppLoggerInterceptor ctx req info
         (fun c q => UnaryServerErrorInterceptor c q info handler) rand) /\
  UnaryServerErrorInterceptor ctx req info
    (fun c q => fst (UnaryServerAppLoggerInterceptor c q info handler rand)) =
  UnaryServerErrorInterceptor
    (WithContext
       (With_Str log_Logger "request_id" (fst (uuid_New_String rand))) ctx)
    req info handler.
Proof.
  unfold UnaryServerErrorInterceptor, UnaryServerAppLoggerInterceptor.
  destruct (uuid_New_String rand) as [id rand']. simpl fst.
  now destruct (handler _ req) as [resp [e|]].
Qed.

(** The stream interceptor returns the error of the handler as it is and
    writes one error event for it; without error it writes nothing.  The
    error is not classified: when it has no status object, it is not what
    [convertToGRPCError] makes of it. *)
Theorem stream_errors_are_not_classified `{Collaborators}
    (Srv Stream StreamServerInfo : Type)
    (srv : Srv) (ss : Stream) (info : StreamServerInfo)
    (handler : StreamHandler Srv Stream) (rand : Rand) :
  (forall rand',
      handler srv (newWrappedStream ss) rand = (None, rand') ->
      StreamServerAppLoggerInterceptor srv ss info handler rand =
      ((None, []), rand')) /\
  (forall e rand',
      handler srv (newWrappedStream ss) rand = (Some e, rand') ->
      StreamServerAppLoggerInterceptor srv ss info handler rand =
      ((Some e,
        [mkLogCall log_Logger ErrorLevel (Some e) ("Error: " ++ Error e)]),
       rand') /\
      (carries_status e = false ->
       fst (fst (StreamServerAppLoggerInterceptor srv ss info handler rand))
       <> convertToGRPCError (Some e))).
Proof.
  unfold StreamServerAppLoggerInterceptor. split.
  - now intros rand' ->.
  - intros e rand' ->. split; [reflexivity|].
    intros Hst Heq. simpl in Heq.
    destruct (convertToGRPCError_carries e) as (r & Hr & Hr').
    rewrite Hr in Heq. injection Heq as <-. congruence.
Qed.

Lemma stream_errors_are_not_classified_witness :
  StreamServerAppLoggerInterceptor
    (H := sample_collaborators) tt tt tt canceling_stream_handler 0 =
  ((Some (fmt_Errorf_w "recv" context_Canceled),
    [mkLogCall (H := sample_collaborators) [] ErrorLevel
       (Some (fmt_Errorf_w "recv" context_Canceled))
       "Error: recv: context canceled"]), 0) /\
  fst (fst (StreamServerAppLoggerInterceptor
              (H := sample_collaborators) tt tt tt canceling_stream_handler 0))
  <> convertToGRPCError (Some (fmt_Errorf_w "recv" context_Canceled)).
Proof.
  destruct (proj2 (stream_errors_are_not_classified
                     (H := sample_collaborators) unit unit unit
                     tt tt tt canceling_stream_handler 0)
              (fmt_Errorf_w "recv" context_Canceled) 0 eq_refl)
    as [Hres Hneq].
  split; [exact Hres | exact (Hneq eq_refl)].
Defined.

(** ** The logging adapter and its options *)

Lemma NoDup_4 {A : Type} (a b c d : A) :
  NoDup [a; b; c; d] ->
  a <> b /\ a <> c /\ a <> d /\ b <> c /\ b <> d /\ c <> d.
Proof.
  intros H.
  inversion H as [|? ? Ha H1]; subst.
  inversion H1 as [|? ? Hb H2]; subst.
  inversion H2 as [|? ? Hc _]; subst.
  simpl in Ha, Hb, Hc. repeat split; intros ->; tauto.
Qed.

Lemma Logger_known `{Collaborators}
    (ctx : context_Context) (lvl : Z) (msg : string) (fields : list any) :
  In lvl known_levels ->
  exists z,
    Logger ctx lvl msg fields =
    Logged (mkLogCall (With_Fields (log_Ctx ctx) fields) z None msg).
Proof.
  unfold Logger, known_levels. cbv zeta. intros Hin.
  repeat match goal with
         | |- context [(lvl =? ?c)%Z] =>
             destruct (Z.eqb_spec lvl c); [eauto|]
         end.
  exfalso. simpl in Hin. intuition congruence.
Qed.

Lemma Logger_panics_iff `{Collaborators}
    (ctx : context_Context) (lvl : Z) (msg : string) (fields : list any) :
  Logger ctx lvl msg fields = Panics lvl <-> ~ In lvl known_levels.
Proof.
  split.
  - intros Hp Hin. destruct (Logger_known ctx lvl msg fields Hin) as [z Hz].
    congruence.
  - unfold Logger, known_levels. cbv zeta. intros Hn.
    repeat match goal with
           | |- context [(lvl =? ?c)%Z] =>
               destruct (Z.eqb_spec lvl c);
               [exfalso; apply Hn; simpl; auto|]
           end.
    reflexivity.
Qed.

Lemma Logger_level_by_name `{Collaborators}
    (ctx : context_Context) (lvl : Z) (msg : string) (fields : list any)
    (z : zerolog_Level) :
  NoDup known_levels ->
  In (lvl, z) [ (LevelDebug, DebugLevel); (LevelInfo, InfoLevel);
                (LevelWarn, WarnLevel); (LevelError, ErrorLevel) ] ->
  Logger ctx lvl msg fields =
  Logged (mkLogCall (With_Fields (log_Ctx ctx) fields) z None msg).
Proof.
  intros Hnd Hz.
  destruct (NoDup_4 _ _ _ _ Hnd) as (Hdi & Hdw & Hde & Hiw & Hie & Hwe).
  unfold Logger. cbv zeta. simpl in Hz.
  destruct Hz as [Hz|[Hz|[Hz|[Hz|[]]]]];
    injection Hz as <- <-; rewrite ?Z.eqb_refl; try reflexivity.
  - rewrite (proj2 (Z.eqb_neq _ _)) by congruence. reflexivity.
  - rewrite !(proj2 (Z.eqb_neq LevelWarn _)) by congruence. reflexivity.
  - rewrite !(proj2 (Z.eqb_neq LevelError _)) by congruence. reflexivity.
Qed.

(** [Logger] writes one event with the message as given and the fields
    added to the logger of the context when the level is one of the four it
    knows, and panics exactly when the level is another one; with the four
    constants distinct, each is written at the [zerolog] level of its
    name. *)
Theorem Logger_known_or_panics `{Collaborators}
    (ctx : context_Context) (lvl : Z) (msg : string) (fields : list any) :
  (In lvl known_levels ->
   exists z,
     Logger ctx lvl msg fields =
     Logged (mkLogCall (With_Fields (log_Ctx ctx) fields) z None msg)) /\
  (Logger ctx lvl msg fields = Panics lvl <-> ~ In lvl known_levels) /\
  (NoDup known_levels ->
   forall z,
     In (lvl, z) [ (LevelDebug, DebugLevel); (LevelInfo, InfoLevel);
                   (LevelWarn, WarnLevel); (LevelError, ErrorLevel) ] ->
     Logger ctx lvl msg fields =
     Logged (mkLogCall (With_Fields (log_Ctx ctx) fields) z None msg)).
Proof.
  split; [apply Logger_known|].
  split; [apply Logger_panics_iff|].
  intros Hnd z. now apply Logger_level_by_name.
Qed.

Lemma Logger_known_or_panics_witness :
  Logger (H := sample_collaborators) [("request_id", "a")] 4 "finished call"
         [("grpc.code", "OK")] =
  Logged (mkLogCall (H := sample_collaborators)
            [("request_id", "a"); ("grpc.code", "OK")]
            WarnLevel None "finished call") /\
  Logger (H := sample_collaborators) [] 12 "finished call" [] = Panics 12.
Proof.
  split.
  - apply (proj2 (proj2 (Logger_known_or_panics
                           (H := sample_collaborators)
                           [("request_id", "a")] 4 "finished call"
                           [("grpc.code", "OK")]))).
    + repeat constructor; simpl; intuition discriminate.
    + simpl. auto.
  - apply (proj1 (proj2 (Logger_known_or_panics
                           (H := sample_collaborators)
                           [] 12 "finished call" []))).
    simpl. intuition discriminate.
Defined.

(** The four constructors of logging interceptors hand the same options
    to the middleware: the options of the caller when there is one, else
    [loggingOpts]; never an empty list.  The events of [loggingOpts] are
    thus in force only for a caller that gives no option: with options
    given, events are set only if one of them sets them. *)
Lemma logger_interceptor_options `{Collaborators}
    (opts : list logging_Option) :
  Forall
    (fun mk : list logging_Option -> logging_Interceptor =>
       options_of (mk opts) =
         match opts with [] => loggingOpts | _ :: _ => opts end /\
       options_of (mk opts) <> [] /\
       existsb sets_events (options_of (mk opts)) =
         match opts with [] => true | _ :: _ => existsb sets_events opts end)
    [ StreamServerGRPCLoggerInterceptor; UnaryServerGRPCLoggerInterceptor;
      UnaryClientGRPCLoggerInterceptor; StreamClientGRPCLoggerInterceptor ].
Proof.
  repeat constructor; destruct opts; simpl; try reflexivity; discriminate.
Qed.
